(** * The Atomic Blog: a shallow embedding of its state and event wiring

    The repository is a small React application.  Its state lives in
    [useState] cells of three components ([App], [FormAddPost], [Archive]),
    its event handlers update those cells, and one value, [searchedPosts],
    is derived from two of them on every render.  A second variant of the
    same logic lives in [PostContext.js], where the state is owned by a
    context provider and read through the [usePosts] hook.

    The embedding keeps JavaScript's dynamic typing where the code relies on
    it: a post is a JavaScript value (the handlers accept any value), an
    object is a finite map from property names to primitive values, and
    evaluation can throw.  Strings are sequences of code units below 256.
    The random words come from the faker library, which is taken as an
    interface over its generator state. *)

From Stdlib Require Import Ascii DecimalString.
From stdpp Require Import base strings list gmap.

(** ** JavaScript values and the built-ins the code calls *)

Module Js.

(** Primitive values that can sit in a property of a post-like object. *)
Inductive prim : Type :=
| PUndefined
| PNull
| PBool (b : bool)
| PString (s : string).

(** A value is a primitive or an ordinary object, given by its own data
    properties; its prototype is [Object.prototype]. *)
Inductive value : Type :=
| VPrim (p : prim)
| VObject (o : gmap string prim).

Inductive exn : Type :=
| TypeError
| Error (message : string).

(** The outcome of evaluating an expression: a value or a thrown exception. *)
Inductive result (A : Type) : Type :=
| Ok (a : A)
| Throw (e : exn).
Arguments Ok {A} a.
Arguments Throw {A} e.

#[global] Instance result_ret : MRet result := @Ok.
#[global] Instance result_bind : MBind result := λ A B f m,
  match m with
  | Ok a => f a
  | Throw e => Throw e
  end.

#[global] Instance prim_eq_dec : EqDecision prim.
Proof. solve_decision. Defined.
#[global] Instance value_eq_dec : EqDecision value.
Proof. solve_decision. Defined.
#[global] Instance exn_eq_dec : EqDecision exn.
Proof. solve_decision. Defined.

(** [v.k], for the two property names the program reads, [title] and
    [body]; no built-in prototype defines either, so a missing own property
    reads as [undefined].  Reading a property of [undefined] or [null]
    throws a [TypeError]. *)
Definition get (v : value) (k : string) : result prim :=
  match v with
  | VPrim PUndefined | VPrim PNull => Throw TypeError
  | VPrim _ => Ok PUndefined
  | VObject o => Ok (default PUndefined (o !! k))
  end.

(** [ToString], as applied by a template literal to each substitution. *)
Definition to_string (p : prim) : string :=
  match p with
  | PUndefined => "undefined"
  | PNull => "null"
  | PBool true => "true"
  | PBool false => "false"
  | PString s => s
  end.

(** [!s] for a string [s]: the empty string is the only falsy string. *)
Definition not_string (s : string) : bool :=
  match s with
  | "" => true
  | String _ _ => false
  end.

(** [String.prototype.toLowerCase].  A character of a Rocq string stands
    for one UTF-16 code unit below 256; in that range the upper-case
    letters are [A]-[Z] and the Latin-1 letters 192-214 and 216-222, each
    32 below its lower-case form. *)
Definition toLowerCase_unit (c : ascii) : ascii :=
  let n := N_of_ascii c in
  if ((65 <=? n) && (n <=? 90) ||
      (192 <=? n) && (n <=? 214) ||
      (216 <=? n) && (n <=? 222))%N
  then ascii_of_N (n + 32)
  else c.

Fixpoint toLowerCase (s : string) : string :=
  match s with
  | "" => ""
  | String c s' => String (toLowerCase_unit c) (toLowerCase s')
  end.

(** [s.includes(q)]: [q] is found at position 0 of [s] or at a later one. *)
Fixpoint includes (s q : string) : bool :=
  String.prefix q s ||
  match s with
  | "" => false
  | String _ s' => includes s' q
  end.

(** [Array.prototype.filter] with a callback that may throw: the callback
    is called on each element in index order and the first exception ends
    the call. *)
Fixpoint filter {A : Type} (cb : A → result bool) (a : list A) : result (list A) :=
  match a with
  | [] => Ok []
  | x :: a' =>
      keep ← cb x;
      kept ← filter cb a';
      mret (if keep : bool then x :: kept else kept)
  end.

End Js.

Import Js.

(** ** The faker library

    [faker.hacker] draws words from its tables with a pseudo-random
    generator that is module state of the library.  The three calls the
    program makes are taken as an interface over that generator state. *)

Class Faker := {
  rng : Type;
  hacker_adjective : rng → string * rng;
  hacker_noun : rng → string * rng;
  hacker_phrase : rng → string * rng;
}.

(** A computation that draws from the generator. *)
Definition Gen `{Faker} (A : Type) : Type := rng → A * rng.

Definition gen_ret `{Faker} {A : Type} (a : A) : Gen A := λ g, (a, g).

Definition gen_bind `{Faker} {A B : Type} (m : Gen A) (k : A → Gen B) : Gen B :=
  λ g, let '(a, g') := m g in k a g'.

Notation "'draw' x ':=' m 'in' k" := (gen_bind m (λ x, k))
  (at level 10, x name, m at level 100, k at level 200, only parsing).

(** The object literal [{ title, body }]: properties are created in source
    order, [title] then [body]. *)
Definition post_object (title body : string) : value :=
  VObject (<["body" := PString body]> (<["title" := PString title]> ∅)).

(** [createRandomPost] (the same function in both variants). *)
Definition createRandomPost `{Faker} : Gen value :=
  draw adjective := hacker_adjective in
  draw noun := hacker_noun in
  draw phrase := hacker_phrase in
  gen_ret (post_object (adjective +:+ " " +:+ noun) phrase).

(** [Array.from({ length: n }, () => f())]: [f] is called [n] times, for the
    indices 0 to [n - 1] in that order. *)
Fixpoint array_from `{Faker} {A : Type} (n : nat) (f : Gen A) : Gen (list A) :=
  match n with
  | 0 => gen_ret []
  | S n' =>
      draw x := f in
      draw xs := array_from n' f in
      gen_ret (x :: xs)
  end.

(** The callback of the filter:
    [`${post.title} ${post.body}`.toLowerCase().includes(searchQuery.toLowerCase())]. *)
Definition matches_query (searchQuery : string) (post : value) : result bool :=
  title ← get post "title";
  body ← get post "body";
  mret (includes (toLowerCase (to_string title +:+ " " +:+ to_string body))
                 (toLowerCase searchQuery)).

(** The derived state [searchedPosts] (the same expression in both
    variants). *)
Definition searchedPosts (posts : list value) (searchQuery : string) : result (list value) :=
  if (0 <? String.length searchQuery)%nat
  then Js.filter (matches_query searchQuery) posts
  else Ok posts.

(** ** The [App] component tree (the variant with local state) *)

Module App.

(** The [useState] cells of the mounted tree. *)
Record State : Type := {
  (* App *)
  posts : list value;
  searchQuery : string;
  isFakeDark : bool;
  (* FormAddPost *)
  title : string;
  body : string;
  (* Archive *)
  archivePosts : list value;
  showArchive : bool;
}.

(** What a handler or an effect does outside the [useState] cells. *)
Inductive effect : Type :=
| PreventDefault
| ClassListToggle (token : string).

(** An event handler: the cells after its state updates, and the outside
    calls it made, in order. *)
Definition handler : Type := State → State * list effect.

Definition skip : handler := λ s, (s, []).

Definition seq (h1 h2 : handler) : handler :=
  λ s, let '(s1, e1) := h1 s in
       let '(s2, e2) := h2 s1 in
       (s2, e1 ++ e2).

Declare Scope handler_scope.
Delimit Scope handler_scope with handler.
Bind Scope handler_scope with handler.
Notation "h1 ;; h2" := (seq h1 h2)
  (at level 100, h2 at level 200, right associativity) : handler_scope.
Local Open Scope handler_scope.

Definition call (e : effect) : handler := λ s, (s, [e]).

(** The state setters, each with an updater function. *)
Definition setPosts (f : list value → list value) : handler :=
  λ s, ({| posts := f (posts s); searchQuery := searchQuery s;
           isFakeDark := isFakeDark s; title := title s; body := body s;
           archivePosts := archivePosts s; showArchive := showArchive s |}, []).

Definition setSearchQuery (q : string) : handler :=
  λ s, ({| posts := posts s; searchQuery := q;
           isFakeDark := isFakeDark s; title := title s; body := body s;
           archivePosts := archivePosts s; showArchive := showArchive s |}, []).

Definition setIsFakeDark (f : bool → bool) : handler :=
  λ s, ({| posts := posts s; searchQuery := searchQuery s;
           isFakeDark := f (isFakeDark s); title := title s; body := body s;
           archivePosts := archivePosts s; showArchive := showArchive s |}, []).

Definition setTitle (t : string) : handler :=
  λ s, ({| posts := posts s; searchQuery := searchQuery s;
           isFakeDark := isFakeDark s; title := t; body := body s;
           archivePosts := archivePosts s; showArchive := showArchive s |}, []).

Definition setBody (b : string) : handler :=
  λ s, ({| posts := posts s; searchQuery := searchQuery s;
           isFakeDark := isFakeDark s; title := title s; body := b;
           archivePosts := archivePosts s; showArchive := showArchive s |}, []).

Definition setShowArchive (f : bool → bool) : handler :=
  λ s, ({| posts := posts s; searchQuery := searchQuery s;
           isFakeDark := isFakeDark s; title := title s; body := body s;
           archivePosts := archivePosts s; showArchive := f (showArchive s) |}, []).

(** The derived state of a render. *)
Definition render_searchedPosts (s : State) : result (list value) :=
  searchedPosts (posts s) (searchQuery s).

(** [handleAddPost]: [setPosts((posts) => [post, ...posts])]. *)
Definition handleAddPost (post : value) : handler :=
  setPosts (λ posts, post :: posts).

(** [handleClearPosts]: [setPosts([])]. *)
Definition handleClearPosts : handler :=
  setPosts (λ _, []).

(** The click handler of the dark-mode button. *)
Definition clickFakeDark : handler :=
  setIsFakeDark (λ isFakeDark, negb isFakeDark).

(** [handleSubmit] of [FormAddPost]; [title] and [body] are the values of
    the render in which the handler was created. *)
Definition handleSubmit (onAddPost : value → handler) : handler :=
  λ s,
    (call PreventDefault ;;
     if not_string (body s) || not_string (title s) then skip
     else onAddPost (post_object (title s) (body s)) ;;
          setTitle "" ;;
          setBody "") s.

(** The effect registered by [useEffect] with the dependency array
    [[isFakeDark]]: it runs after a render in which [isFakeDark] differs
    from the previous render's. *)
Definition fakeDarkEffect (before after : State) : list effect :=
  if bool_decide (isFakeDark before = isFakeDark after) then []
  else [ClassListToggle "fake-dark-mode"].

(** The events of the page. *)
Inductive event : Type :=
| ClickFakeDark
| ChangeSearch (v : string)
| ClickClearPosts
| ChangeTitle (v : string)
| ChangeBody (v : string)
| SubmitForm
| ClickShowArchive
| ClickAddAsNewPost (i : nat).

(** The handler an event runs; [None] when the control is not on the page
    (the archive's buttons exist only while the archive is shown). *)
Definition dispatch (e : event) (s : State) : option handler :=
  match e with
  | ClickFakeDark => Some clickFakeDark
  | ChangeSearch v => Some (setSearchQuery v)
  | ClickClearPosts => Some handleClearPosts
  | ChangeTitle v => Some (setTitle v)
  | ChangeBody v => Some (setBody v)
  | SubmitForm => Some (handleSubmit handleAddPost)
  | ClickShowArchive => Some (setShowArchive negb)
  | ClickAddAsNewPost i =>
      if showArchive s
      then post ← archivePosts s !! i; Some (handleAddPost post)
      else None
  end.

(** One event: its handler, then the effects of the re-render. *)
Definition step (e : event) (s : State) : option (State * list effect) :=
  h ← dispatch e s;
  let '(s', effs) := h s in
  Some (s', effs ++ fakeDarkEffect s s').

(** Mounting the tree: [App] initialises its cells, then its children
    [FormAddPost] and [Archive] theirs; every effect runs once. *)
#[warnings="-abstract-large-number"] Definition mount `{Faker} : Gen (State * list effect) :=
  draw posts := array_from 30 createRandomPost in
  draw archive := array_from 30000 createRandomPost in
  gen_ret ({| posts := posts; searchQuery := ""; isFakeDark := false;
              title := ""; body := "";
              archivePosts := archive; showArchive := false |},
           [ClassListToggle "fake-dark-mode"]).

Definition init `{Faker} (g : rng) : State := (mount g).1.1.

(** The states the page can be in after mounting with generator state [g]. *)
Inductive reachable `{Faker} (g : rng) : State → Prop :=
| reachable_init : reachable g (init g)
| reachable_step s e s' effs :
    reachable g s → step e s = Some (s', effs) → reachable g s'.

End App.

(** ** The context variant ([PostContext.js]) *)

Module PostContext.

(** The [useState] cells of [PostProvider]. *)
Record State : Type := {
  posts : list value;
  searchQuery : string;
}.

Definition setPosts (f : list value → list value) (s : State) : State :=
  {| posts := f (posts s); searchQuery := searchQuery s |}.

Definition setSearchQuery (q : string) (s : State) : State :=
  {| posts := posts s; searchQuery := q |}.

(** [handleAddPost] and [handleClearPosts] of [PostProvider]. *)
Definition handleAddPost (post : value) : State → State :=
  setPosts (λ posts, post :: posts).

Definition handleClearPosts : State → State :=
  setPosts (λ _, []).

(** The object [PostProvider] passes to [PostContext.Provider]. *)
Record ContextValue : Type := {
  ctx_posts : list value;
  ctx_onAddPost : value → State → State;
  ctx_onClearPosts : State → State;
  ctx_searchQuery : string;
  ctx_setSearchQuery : string → State → State;
}.

(** One render of [PostProvider]: the derived state, then the context
    value built from it.  A throwing render provides nothing. *)
Definition provider_value (s : State) : result ContextValue :=
  searched ← searchedPosts (posts s) (searchQuery s);
  mret {| ctx_posts := searched;
          ctx_onAddPost := handleAddPost;
          ctx_onClearPosts := handleClearPosts;
          ctx_searchQuery := searchQuery s;
          ctx_setSearchQuery := setSearchQuery |}.

(** [PostProvider]'s initial cells. *)
Definition mount `{Faker} : Gen State :=
  draw posts := array_from 30 createRandomPost in
  gen_ret {| posts := posts; searchQuery := "" |}.

(** [useContext(PostContext)] in a component whose enclosing
    [PostContext.Provider]s supply [providers], innermost first.  The
    context was created with no default, so outside every provider the
    hook returns [undefined], here [None]. *)
Definition useContext (providers : list ContextValue) : option ContextValue :=
  head providers.

Definition outside_message : string :=
  "PostContext was used outside of the PostProvider".

(** [usePosts]. *)
Definition usePosts (providers : list ContextValue) : result ContextValue :=
  match useContext providers with
  | None => Throw (Error outside_message)
  | Some context => Ok context
  end.

End PostContext.

(** ** A small faker, to run the definitions *)

Module ToyFaker.

Definition pick (words : list string) (g : nat) : string * nat :=
  (default "" (words !! (g `mod` length words)), S g).

#[export] Instance toy : Faker := {|
  rng := nat;
  hacker_adjective := pick ["auxiliary"; "primary"; "back-end"; "digital"];
  hacker_noun := pick ["driver"; "protocol"; "bandwidth"];
  hacker_phrase := pick ["We need to parse the redundant SMS capacitor!";
                         "Try to index the HDD port";
                         "You can't hack the feed without bypassing the JSON pixel"];
|}.

End ToyFaker.

(** ** Runs of events, the document's class list, the archive options *)

Module Page.
Import App.

(** A sequence of events, one after the other, with all their outside
    calls; [None] as soon as an event's control is not on the page. *)
Fixpoint run (es : list event) (s : State) : option (State * list effect) :=
  match es with
  | [] => Some (s, [])
  | e :: es' =>
      '(s1, effs1) ← step e s;
      '(s2, effs2) ← run es' s1;
      Some (s2, effs1 ++ effs2)
  end.

(** [classList.toggle(token)]: the token is removed if present and added
    otherwise. *)
Definition classList_toggle (token : string) (classList : gset string) : gset string :=
  if decide (token ∈ classList) then classList ∖ {[token]}
  else classList ∪ {[token]}.

(** What an outside call does to the class list of [document.documentElement]. *)
Definition perform (classList : gset string) (eff : effect) : gset string :=
  match eff with
  | PreventDefault => classList
  | ClassListToggle token => classList_toggle token classList
  end.

Definition perform_all (effs : list effect) (classList : gset string) : gset string :=
  foldl perform classList effs.

(** A non-negative integer in a template literal: its decimal digits. *)
Definition number_to_string (n : nat) : string :=
  NilEmpty.string_of_uint (Nat.to_uint n).

Record ArchiveOptions : Type := {
  show : bool;
  options_title : string;
}.

(** The callback of the [useMemo] in [App]; it reads [posts] of the render
    it was created in. *)
Definition calculate_archiveOptions (s : State) : ArchiveOptions :=
  {| show := false;
     options_title :=
       "Post archive in addition to " +:+
       number_to_string (length (posts s)) +:+ " main posts" |}.

(** [useMemo(calculate, deps)]: the hook's cell holds the dependencies and
    the value of the last calculation; the value is calculated again when
    there is no cell yet or a dependency differs. *)
Definition useMemo {D V : Type} `{EqDecision D}
    (calculate : V) (deps : D) (cell : option (D * V)) : V * (D * V) :=
  match cell with
  | Some (deps', cached) =>
      if decide (deps' = deps) then (cached, (deps', cached))
      else (calculate, (deps, calculate))
  | None => (calculate, (deps, calculate))
  end.

(** [archiveOptions] in a render of [App]: memoized on [[posts.length]]. *)
Definition render_archiveOptions (s : State) (cell : option (nat * ArchiveOptions)) :
    ArchiveOptions * (nat * ArchiveOptions) :=
  useMemo (calculate_archiveOptions s) (length (posts s)) cell.

(** The memo cell after the first render in state [s] and the renders that
    follow each of the events [es]. *)
Fixpoint renders (es : list event) (s : State) (cell : option (nat * ArchiveOptions)) :
    option (State * ArchiveOptions) :=
  let '(options, cell') := render_archiveOptions s cell in
  match es with
  | [] => Some (s, options)
  | e :: es' =>
      '(s', _) ← step e s;
      renders es' s' (Some cell')
  end.

End Page.

(** ** The vocabulary of the specification *)

(** A post in the sense of the glossary: an object whose own properties are
    exactly [title] and [body], both holding strings. *)
Definition is_flat_post (v : value) : Prop :=
  ∃ (o : gmap string prim) (t b : string),
    v = VObject o ∧
    dom o = ({["title"; "body"]} : gset string) ∧
    o !! "title" = Some (PString t) ∧
    o !! "body" = Some (PString b).

(** [q] occurs in [s] as a substring. *)
Definition Substring (q s : string) : Prop :=
  ∃ before after : string, s = before +:+ q +:+ after.

(** The post is a flat record and its lowercased text, the title, a single
    space and the body, contains the lowercased query. *)
Definition post_matches (searchQuery : string) (v : value) : Prop :=
  ∃ t b : string,
    v = post_object t b ∧
    Substring (toLowerCase searchQuery) (toLowerCase (t +:+ " " +:+ b)).

(** [selected P l l']: [l'] consists of the elements of [l] that satisfy
    [P], each kept once per occurrence and in the order of [l]. *)
Inductive selected {A : Type} (P : A → Prop) : list A → list A → Prop :=
| selected_nil : selected P [] []
| selected_keep x l l' : P x → selected P l l' → selected P (x :: l) (x :: l')
| selected_drop x l l' : ¬ P x → selected P l l' → selected P (x :: l) l'.

(** [undefined] and [null], the values without properties. *)
Definition is_nullish (v : value) : Prop :=
  v = VPrim PUndefined ∨ v = VPrim PNull.

(** The cells of [App] that [PostProvider] has too. *)
Definition provider_cells (s : App.State) : PostContext.State :=
  {| PostContext.posts := App.posts s;
     PostContext.searchQuery := App.searchQuery s |}.

(** ** Running the definitions *)

Example toLowerCase_example :
  toLowerCase "The ATOMIC Blog [Z]" = "the atomic blog [z]".
Proof. reflexivity. Qed.

Example includes_example :
  includes "neural card" "al c" = true ∧ includes "neural card" "lc" = false.
Proof. split; reflexivity. Qed.

Example searchedPosts_example :
  searchedPosts [post_object "Neural card" "reboot the bus";
                 post_object "Open bus" "hack the CARD";
                 post_object "Virtual port" "index it"] "Card" =
  Ok [post_object "Neural card" "reboot the bus";
      post_object "Open bus" "hack the CARD"].
Proof. vm_compute. reflexivity. Qed.

(** The text searched is the title, one space and the body, so a query can
    match across the two. *)
Example searchedPosts_across_fields :
  searchedPosts [post_object "Neural card" "reboot the bus"] "CARD REBOOT" =
  Ok [post_object "Neural card" "reboot the bus"].
Proof. vm_compute. reflexivity. Qed.

(** A list element without properties makes the filter throw, but only when
    the filter runs. *)
Example searchedPosts_undefined_element :
  searchedPosts [VPrim PUndefined] "a" = Throw TypeError ∧
  searchedPosts [VPrim PUndefined] "" = Ok [VPrim PUndefined].
Proof. split; reflexivity. Qed.

Example createRandomPost_example :
  (array_from 2 createRandomPost (0 : @rng ToyFaker.toy)).1 =
  [post_object "auxiliary protocol"
     "You can't hack the feed without bypassing the JSON pixel";
   post_object "digital protocol"
     "You can't hack the feed without bypassing the JSON pixel"].
Proof. vm_compute. reflexivity. Qed.

Example submit_example :
  App.step App.SubmitForm
    {| App.posts := [post_object "a" "b"]; App.searchQuery := "a";
       App.isFakeDark := true; App.title := "t"; App.body := "u";
       App.archivePosts := []; App.showArchive := false |} =
  Some ({| App.posts := [post_object "t" "u"; post_object "a" "b"];
           App.searchQuery := "a"; App.isFakeDark := true;
           App.title := ""; App.body := "";
           App.archivePosts := []; App.showArchive := false |},
        [App.PreventDefault]).
Proof. vm_compute. reflexivity. Qed.

Example dark_click_example :
  App.step App.ClickFakeDark
    {| App.posts := []; App.searchQuery := "";
       App.isFakeDark := false; App.title := ""; App.body := "";
       App.archivePosts := []; App.showArchive := false |} =
  Some ({| App.posts := []; App.searchQuery := "";
           App.isFakeDark := true; App.title := ""; App.body := "";
           App.archivePosts := []; App.showArchive := false |},
        [App.ClassListToggle "fake-dark-mode"]).
Proof. reflexivity. Qed.

Example archive_button_example :
  App.step (App.ClickAddAsNewPost 0)
    {| App.posts := []; App.searchQuery := "";
       App.isFakeDark := false; App.title := ""; App.body := "";
       App.archivePosts := [post_object "a" "b"]; App.showArchive := false |} =
  None.
Proof. reflexivity. Qed.

(** ** Strings *)

Lemma append_nil_l (s : string) : "" +:+ s = s.
Proof. reflexivity. Qed.

Lemma append_cons_l (c : ascii) (s t : string) :
  String c s +:+ t = String c (s +:+ t).
Proof. reflexivity. Qed.

Lemma prefix_spec (q s : string) :
  String.prefix q s = true ↔ ∃ after, s = q +:+ after.
Proof.
  revert s. induction q as [|c q IH]; intros s.
  - split; [intros _; by exists s | by destruct s].
  - destruct s as [|d s]; simpl.
    + split; [done | intros [after Heq]; discriminate].
    + destruct (Ascii.ascii_dec c d) as [->|Hne].
      * rewrite IH. split; intros [after Heq]; exists after;
          rewrite append_cons_l in *; congruence.
      * split; [done | intros [after Heq]; rewrite append_cons_l in Heq; congruence].
Qed.

Lemma includes_unfold (s q : string) :
  includes s q =
  String.prefix q s ||
  match s with
  | "" => false
  | String _ s' => includes s' q
  end.
Proof. by destruct s. Qed.

Lemma includes_spec (s q : string) :
  includes s q = true ↔ Substring q s.
Proof.
  unfold Substring. split.
  - induction s as [|c s IH]; rewrite includes_unfold, orb_true_iff, prefix_spec.
    + intros [[after Heq]|?]; [|done]. exists "", after. exact Heq.
    + intros [[after Heq]|Hin].
      * exists "", after. exact Heq.
      * destruct (IH Hin) as (before & after & ->).
        by exists (String c before), after.
  - intros (before & after & ->).
    induction before as [|c before IH]; rewrite includes_unfold, orb_true_iff.
    + left. apply prefix_spec. by exists after.
    + right. by rewrite append_cons_l.
Qed.

Lemma length_pos_nonempty (q : string) :
  (0 <? String.length q) = true ↔ q ≠ "".
Proof. destruct q; simpl; split; done. Qed.

(** ** Objects *)

Lemma post_object_title (t b : string) :
  get (post_object t b) "title" = Ok (PString t).
Proof. reflexivity. Qed.

Lemma post_object_body (t b : string) :
  get (post_object t b) "body" = Ok (PString b).
Proof. reflexivity. Qed.

Lemma post_object_flat (t b : string) : is_flat_post (post_object t b).
Proof.
  unfold post_object. eexists _, t, b. split; [done|]. split; [|done].
  rewrite !dom_insert_L, dom_empty_L. set_solver.
Qed.

Lemma flat_post_object (v : value) :
  is_flat_post v → ∃ t b, v = post_object t b.
Proof.
  intros (o & t & b & -> & Hdom & Ht & Hb). exists t, b.
  unfold post_object. f_equal. apply map_eq. intros k.
  destruct (decide (k = "body")) as [->|Hkb];
    [by rewrite lookup_insert_eq|rewrite lookup_insert_ne by done].
  destruct (decide (k = "title")) as [->|Hkt];
    [by rewrite lookup_insert_eq|rewrite lookup_insert_ne by done].
  rewrite lookup_empty. apply not_elem_of_dom.
  rewrite Hdom, elem_of_union, !elem_of_singleton. by intros [?|?].
Qed.

Lemma post_object_inj (t b t' b' : string) :
  post_object t b = post_object t' b' → t = t' ∧ b = b'.
Proof.
  intros Heq. split.
  - pose proof (post_object_title t b) as H. rewrite Heq, post_object_title in H.
    congruence.
  - pose proof (post_object_body t b) as H. rewrite Heq, post_object_body in H.
    congruence.
Qed.

(** ** The filter *)

Lemma filter_cons {A : Type} (cb : A → result bool) (x : A) (a : list A) :
  Js.filter cb (x :: a) =
  match cb x with
  | Ok keep =>
      match Js.filter cb a with
      | Ok kept => Ok (if keep then x :: kept else kept)
      | Throw e => Throw e
      end
  | Throw e => Throw e
  end.
Proof. reflexivity. Qed.

(** Whatever the callback, a filter that returns, returns a sublist. *)
Lemma filter_sublist {A : Type} (cb : A → result bool) (a kept : list A) :
  Js.filter cb a = Ok kept → kept `sublist_of` a.
Proof.
  revert kept. induction a as [|x a IH]; intros kept.
  - intros [= <-]. constructor.
  - rewrite filter_cons.
    destruct (cb x) as [keep|]; [|done].
    destruct (Js.filter cb a) as [kept'|]; [|done].
    intros [= <-]. destruct keep; constructor; by apply IH.
Qed.

(** The callback on a post evaluates to the test of the specification. *)
Lemma matches_query_post_object (q t b : string) :
  matches_query q (post_object t b) =
  Ok (includes (toLowerCase (t +:+ " " +:+ b)) (toLowerCase q)).
Proof. reflexivity. Qed.

Lemma matches_query_true (q t b : string) :
  matches_query q (post_object t b) = Ok true ↔ post_matches q (post_object t b).
Proof.
  rewrite matches_query_post_object. split.
  - intros [= Hinc]. exists t, b. split; [done|]. by apply includes_spec.
  - intros (t' & b' & Heq & Hsub).
    apply post_object_inj in Heq as [<- <-].
    f_equal. by apply includes_spec.
Qed.

(** On a list of posts the filter returns, and it returns the posts that
    match. *)
Lemma filter_selected (q : string) (posts : list value) :
  Forall is_flat_post posts →
  ∃ kept, Js.filter (matches_query q) posts = Ok kept ∧
          selected (post_matches q) posts kept.
Proof.
  induction 1 as [|v posts Hv _ (kept & Hfilter & Hsel)].
  - exists []. split; [done | constructor].
  - destruct (flat_post_object v Hv) as (t & b & ->).
    rewrite filter_cons, Hfilter.
    destruct (matches_query q (post_object t b)) as [[]|] eqn:Hcb.
    + eexists. split; [done|].
      apply selected_keep; [by apply matches_query_true | done].
    + eexists. split; [done|].
      apply selected_drop; [|done].
      intros Hm. apply matches_query_true in Hm. congruence.
    + by rewrite matches_query_post_object in Hcb.
Qed.

Lemma searchedPosts_empty (posts : list value) :
  searchedPosts posts "" = Ok posts.
Proof. reflexivity. Qed.

Lemma searchedPosts_nonempty (posts : list value) (q : string) :
  q ≠ "" → searchedPosts posts q = Js.filter (matches_query q) posts.
Proof.
  intros Hq. unfold searchedPosts.
  by rewrite (proj2 (length_pos_nonempty q) Hq).
Qed.

Lemma searchedPosts_sublist (posts searched : list value) (q : string) :
  searchedPosts posts q = Ok searched → searched `sublist_of` posts.
Proof.
  unfold searchedPosts. destruct (0 <? String.length q).
  - apply filter_sublist.
  - by intros [= <-].
Qed.

(** C1.  For every list of posts and every search query, the derived list
    [searchedPosts] is the list of posts itself when the query is empty, and
    otherwise consists of the posts, in their original order, whose
    lowercased title, space and body contains the lowercased query as a
    substring. *)
Theorem searchedPosts_correct (posts : list value) (searchQuery : string) :
  Forall is_flat_post posts →
  (searchQuery = "" → searchedPosts posts searchQuery = Ok posts) ∧
  (searchQuery ≠ "" →
   ∃ searched, searchedPosts posts searchQuery = Ok searched ∧
               selected (post_matches searchQuery) posts searched).
Proof.
  intros Hposts. split.
  - intros ->. apply searchedPosts_empty.
  - intros Hq. rewrite searchedPosts_nonempty by done.
    by apply filter_selected.
Qed.

Lemma searchedPosts_correct_witness :
  searchedPosts [post_object "Neural card" "reboot the BUS";
                 post_object "open-source bus" "hack it"] "" =
    Ok [post_object "Neural card" "reboot the BUS";
        post_object "open-source bus" "hack it"] ∧
  ∃ searched,
    searchedPosts [post_object "Neural card" "reboot the BUS";
                   post_object "open-source bus" "hack it"] "Card R" = Ok searched ∧
    selected (post_matches "Card R")
      [post_object "Neural card" "reboot the BUS";
       post_object "open-source bus" "hack it"] searched.
Proof.
  pose proof (searchedPosts_correct
    [post_object "Neural card" "reboot the BUS";
     post_object "open-source bus" "hack it"]) as H.
  split.
  - apply (H ""); [|reflexivity].
    repeat constructor; apply post_object_flat.
  - apply (H "Card R"); [|discriminate].
    repeat constructor; apply post_object_flat.
Defined.

(** C10.  The filtered list is a subsequence of the stored list of posts:
    for every list and every query, every element of [searchedPosts] occurs
    in [posts], the relative order is that of [posts], and the length of
    [searchedPosts] does not exceed the length of [posts]; and on a list of
    posts the evaluation does return such a list. *)
Theorem searchedPosts_subsequence (posts : list value) (searchQuery : string) :
  (∀ searched,
     searchedPosts posts searchQuery = Ok searched →
     searched `sublist_of` posts ∧
     (∀ post, post ∈ searched → post ∈ posts) ∧
     length searched ≤ length posts) ∧
  (Forall is_flat_post posts →
   ∃ searched, searchedPosts posts searchQuery = Ok searched).
Proof.
  split.
  - intros searched Heq.
    pose proof (searchedPosts_sublist _ _ _ Heq) as Hsub.
    repeat split; [done | | by apply sublist_length].
    intros post Hin. by eapply elem_of_sublist.
  - intros Hposts. destruct (decide (searchQuery = "")) as [->|Hq].
    + by exists posts.
    + rewrite searchedPosts_nonempty by done.
      destruct (filter_selected searchQuery posts Hposts) as (kept & ? & _).
      by exists kept.
Qed.

Lemma searchedPosts_subsequence_witness :
  ([post_object "a" "x"; post_object "a" "x"] `sublist_of`
     [post_object "a" "x"; post_object "b" "y"; post_object "a" "x"] ∧
   (∀ post, post ∈ [post_object "a" "x"; post_object "a" "x"] →
            post ∈ [post_object "a" "x"; post_object "b" "y";
                    post_object "a" "x"]) ∧
   2 ≤ 3) ∧
  ∃ searched,
    searchedPosts [post_object "a" "x"; post_object "b" "y";
                   post_object "a" "x"] "A " = Ok searched.
Proof.
  pose proof (searchedPosts_subsequence
    [post_object "a" "x"; post_object "b" "y"; post_object "a" "x"] "A ")
    as [Hsub Hret].
  split.
  - apply (Hsub [post_object "a" "x"; post_object "a" "x"]).
    vm_compute. reflexivity.
  - apply Hret. repeat constructor; apply post_object_flat.
Defined.

(** ** Random posts *)

Section Generation.
Context `{Faker}.

Lemma gen_bind_eq {A B : Type} (m : Gen A) (k : A → Gen B) (g : rng) :
  gen_bind m k g = k (m g).1 (m g).2.
Proof. unfold gen_bind. by destruct (m g). Qed.

(** The record [createRandomPost] returns: three draws, in source order. *)
Lemma createRandomPost_eq (g : rng) :
  (createRandomPost g).1 =
  post_object
    ((hacker_adjective g).1 +:+ " " +:+ (hacker_noun (hacker_adjective g).2).1)
    (hacker_phrase (hacker_noun (hacker_adjective g).2).2).1.
Proof. unfold createRandomPost. by rewrite !gen_bind_eq. Qed.

Lemma createRandomPost_flat (g : rng) : is_flat_post (createRandomPost g).1.
Proof. rewrite createRandomPost_eq. apply post_object_flat. Qed.

Lemma array_from_S {A : Type} (n : nat) (f : Gen A) (g : rng) :
  (array_from (S n) f g).1 = (f g).1 :: (array_from n f (f g).2).1.
Proof.
  change (array_from (S n) f) with
    (gen_bind f (λ x, gen_bind (array_from n f) (λ xs, gen_ret (x :: xs)))).
  by rewrite !gen_bind_eq.
Qed.

Lemma array_from_length {A : Type} (n : nat) (f : Gen A) (g : rng) :
  length (array_from n f g).1 = n.
Proof.
  revert g. induction n as [|n IH]; intros g; [done|].
  rewrite array_from_S. simpl. by rewrite IH.
Qed.

(** Every element of the array is the result of one call of [f]. *)
Lemma array_from_Forall {A : Type} (n : nat) (f : Gen A) (g : rng) :
  Forall (λ x, ∃ g', x = (f g').1) (array_from n f g).1.
Proof.
  revert g. induction n as [|n IH]; intros g; [constructor|].
  rewrite array_from_S. constructor; [by exists g | apply IH].
Qed.

Lemma random_posts_flat (n : nat) (g : rng) :
  Forall is_flat_post (array_from n createRandomPost g).1.
Proof.
  eapply Forall_impl; [apply array_from_Forall|].
  intros v [g' ->]. apply createRandomPost_flat.
Qed.

Lemma App_init_posts (g : rng) :
  App.posts (App.init g) = (array_from 30 createRandomPost g).1.
Proof. unfold App.init, App.mount. by rewrite !gen_bind_eq. Qed.

Lemma App_init_archive_flat (g : rng) :
  Forall is_flat_post (App.archivePosts (App.init g)).
Proof.
  unfold App.init, App.mount. rewrite !gen_bind_eq.
  apply random_posts_flat.
Qed.

Lemma PostContext_mount_posts (g : rng) :
  PostContext.posts (PostContext.mount g).1 =
  (array_from 30 createRandomPost g).1.
Proof. unfold PostContext.mount. by rewrite !gen_bind_eq. Qed.

(** An event changes the list of posts in one of three ways, none of which
    draws from the generator. *)
Lemma step_posts (e : App.event) (s s' : App.State) (effs : list App.effect) :
  App.step e s = Some (s', effs) →
  App.posts s' = App.posts s ∨
  App.posts s' = [] ∨
  ∃ post, App.posts s' = post :: App.posts s.
Proof.
  unfold App.step. destruct e; simpl; try (intros [= <- <-]; simpl; by eauto).
  - unfold App.handleSubmit, App.seq, App.call, App.skip.
    destruct (not_string (App.body s) || not_string (App.title s));
      intros [= <- <-]; simpl; eauto.
  - destruct (App.showArchive s); [|done].
    destruct (App.archivePosts s !! i); [|done].
    intros [= <- <-]; simpl; eauto.
Qed.

(** C7.  The initial posts state is a list of exactly 30 records, each
    produced by [createRandomPost], whose title is a random adjective, a
    space and a random noun and whose body is a random phrase; the list is
    created at initialization, and no later event creates it anew. *)
Theorem initial_posts (g : rng) :
  length (App.posts (App.init g)) = 30 ∧
  App.posts (App.init g) = (array_from 30 createRandomPost g).1 ∧
  PostContext.posts (PostContext.mount g).1 = App.posts (App.init g) ∧
  Forall (λ post, ∃ g',
            post = (createRandomPost g').1 ∧
            post = post_object
                     ((hacker_adjective g').1 +:+ " " +:+
                      (hacker_noun (hacker_adjective g').2).1)
                     (hacker_phrase (hacker_noun (hacker_adjective g').2).2).1)
         (App.posts (App.init g)) ∧
  (∀ e s s' effs,
     App.step e s = Some (s', effs) →
     App.posts s' = App.posts s ∨
     App.posts s' = [] ∨
     ∃ post, App.posts s' = post :: App.posts s).
Proof.
  rewrite PostContext_mount_posts, App_init_posts.
  split; [apply array_from_length|]. split; [done|]. split; [done|].
  split; [|apply step_posts].
  eapply Forall_impl; [apply array_from_Forall|].
  intros v [g' ->]. exists g'. split; [done | apply createRandomPost_eq].
Qed.

(** The invariant of the page: the posts and the archived posts are flat
    records. *)
Lemma step_flat (e : App.event) (s s' : App.State) (effs : list App.effect) :
  App.step e s = Some (s', effs) →
  Forall is_flat_post (App.posts s) ∧ Forall is_flat_post (App.archivePosts s) →
  Forall is_flat_post (App.posts s') ∧ Forall is_flat_post (App.archivePosts s').
Proof.
  intros Hstep [Hposts Harchive]. revert Hstep.
  unfold App.step. destruct e; simpl; try (intros [= <- <-]; simpl; by eauto).
  - unfold App.handleSubmit, App.seq, App.call, App.skip.
    destruct (not_string (App.body s) || not_string (App.title s));
      intros [= <- <-]; simpl; [done|].
    split; [|done]. constructor; [apply post_object_flat | done].
  - destruct (App.showArchive s); [|done].
    destruct (App.archivePosts s !! i) as [post|] eqn:Hi; [|done].
    intros [= <- <-]; simpl. split; [|done].
    constructor; [|done]. by eapply Forall_lookup_1.
Qed.

(** C4.  Every element of the posts state is a flat record with exactly two
    string fields, [title] and [body]: this holds of the randomly generated
    initial list and of the archive, and every event of the page (adding
    through the form, adding a post of the archive, clearing, and the
    others) preserves it. *)
Theorem posts_are_flat_records (g : rng) (s : App.State) :
  App.reachable g s →
  Forall is_flat_post (App.posts s) ∧ Forall is_flat_post (App.archivePosts s).
Proof.
  induction 1 as [|s e s' effs _ IH Hstep].
  - split; [|apply App_init_archive_flat].
    rewrite App_init_posts. apply random_posts_flat.
  - by eapply step_flat.
Qed.

End Generation.

Lemma posts_are_flat_records_witness :
  Forall is_flat_post (App.posts (App.init (H:=ToyFaker.toy) 0)) ∧
  Forall is_flat_post (App.archivePosts (App.init (H:=ToyFaker.toy) 0)).
Proof.
  apply (posts_are_flat_records (H:=ToyFaker.toy) 0
           (App.init (H:=ToyFaker.toy) 0)).
  apply App.reachable_init.
Defined.

(** ** The handlers of [App] *)

Section Handlers.
Import App.
Local Open Scope handler_scope.

Lemma seq_eq (h1 h2 : handler) (s : State) :
  (h1 ;; h2) s = ((h2 (h1 s).1).1, (h1 s).2 ++ (h2 (h1 s).1).2).
Proof. unfold seq. destruct (h1 s) as [s1 e1]. simpl. by destruct (h2 s1). Qed.

(** C2.  The filtering computation is a function of the posts list and the
    search query alone: two renders whose states agree on these two cells
    compute equal filtered lists (or throw the same exception), whatever
    the other cells ([isFakeDark], the form fields, the archive) hold. *)
Theorem searchedPosts_depends_on_two_inputs (s1 s2 : State) :
  posts s1 = posts s2 →
  searchQuery s1 = searchQuery s2 →
  render_searchedPosts s1 = render_searchedPosts s2.
Proof. unfold render_searchedPosts. by intros -> ->. Qed.

Lemma searchedPosts_depends_on_two_inputs_witness :
  render_searchedPosts
    {| posts := [post_object "a b" "c"; post_object "d" "e"];
       searchQuery := "B C"; isFakeDark := false;
       title := ""; body := ""; archivePosts := []; showArchive := false |} =
  render_searchedPosts
    {| posts := [post_object "a b" "c"; post_object "d" "e"];
       searchQuery := "B C"; isFakeDark := true;
       title := "draft"; body := "text";
       archivePosts := [post_object "x" "y"]; showArchive := true |}.
Proof.
  apply searchedPosts_depends_on_two_inputs; reflexivity.
Defined.

(** C3, as the specification states it, fails: the new post does not go to
    the end of the list. *)
Lemma handleAddPost_does_not_append :
  posts (handleAddPost (post_object "new" "n")
           {| posts := [post_object "old" "o"]; searchQuery := "";
              isFakeDark := false; title := ""; body := "";
              archivePosts := []; showArchive := false |}).1 ≠
  [post_object "old" "o"] ++ [post_object "new" "n"].
Proof.
  change (post_object "new" "n" :: [post_object "old" "o"] ≠
          [post_object "old" "o"; post_object "new" "n"]).
  intros Heq.
  assert (post_object "new" "n" = post_object "old" "o") as Hhead
    by congruence.
  apply post_object_inj in Hhead as [Htitle _]. discriminate.
Qed.

(** C3, amended.  Adding a post puts it at the front of the list: after
    [handleAddPost(p)] the posts list is [p] followed by the old list, so
    all previously present posts are unchanged, in their previous order, each
    one position later.  The same holds in the context variant. *)
Theorem handleAddPost_prepends (s : State) (c : PostContext.State) (p : value) :
  posts (handleAddPost p s).1 = p :: posts s ∧
  PostContext.posts (PostContext.handleAddPost p c) = p :: PostContext.posts c ∧
  (∀ i, posts (handleAddPost p s).1 !! S i = posts s !! i) ∧
  posts (handleAddPost p s).1 !! 0 = Some p.
Proof. done. Qed.

(** C5.  The dark-mode button toggles a boolean: one click sets
    [isFakeDark] to its negation, and two successive clicks restore the
    original value (and with it the whole state). *)
Theorem fake_dark_toggle_involution (s : State) :
  ∃ s1 s2 effs1 effs2,
    step ClickFakeDark s = Some (s1, effs1) ∧
    isFakeDark s1 = negb (isFakeDark s) ∧
    step ClickFakeDark s1 = Some (s2, effs2) ∧
    isFakeDark s2 = isFakeDark s ∧
    s2 = s.
Proof.
  destruct s as [ps q dark t b arch sh].
  eexists _, _, _, _. unfold step; simpl.
  repeat split; simpl; by rewrite ?negb_involutive.
Qed.

Lemma step_effects (e : event) (s s' : State) (effs : list effect) :
  step e s = Some (s', effs) →
  Forall (λ eff, eff = PreventDefault ∨ eff = ClassListToggle "fake-dark-mode")
         effs.
Proof.
  assert (∀ s1 s2, Forall
    (λ eff, eff = PreventDefault ∨ eff = ClassListToggle "fake-dark-mode")
    (fakeDarkEffect s1 s2)) as Hdark.
  { intros s1 s2. unfold fakeDarkEffect.
    case_bool_decide; [constructor | constructor; [by right | constructor]]. }
  unfold step. destruct e; simpl;
    try (intros [= <- <-]; simpl; by apply Hdark).
  - unfold handleSubmit, seq, call, skip.
    destruct (not_string (body s) || not_string (title s));
      intros [= <- <-]; simpl; constructor; by eauto.
  - destruct (showArchive s); [|done].
    destruct (archivePosts s !! i); [|done].
    intros [= <- <-]; simpl; by apply Hdark.
Qed.

(** C6.  The state-updating operations touch only their own cell:
    [handleAddPost] and [handleClearPosts] change only the posts list, and
    setting the search query changes only the search query; none of the
    three calls anything outside the state cells, and the only outside
    calls any event of the page makes are [preventDefault] and the toggle of
    the [fake-dark-mode] class, neither of which carries a post. *)
Theorem handlers_frame (s : State) (p : value) (q : string) :
  (let s' := (handleAddPost p s).1 in
   searchQuery s' = searchQuery s ∧ isFakeDark s' = isFakeDark s ∧
   title s' = title s ∧ body s' = body s ∧
   archivePosts s' = archivePosts s ∧ showArchive s' = showArchive s ∧
   (handleAddPost p s).2 = []) ∧
  (let s' := (handleClearPosts s).1 in
   searchQuery s' = searchQuery s ∧ isFakeDark s' = isFakeDark s ∧
   title s' = title s ∧ body s' = body s ∧
   archivePosts s' = archivePosts s ∧ showArchive s' = showArchive s ∧
   (handleClearPosts s).2 = []) ∧
  (let s' := (setSearchQuery q s).1 in
   posts s' = posts s ∧ isFakeDark s' = isFakeDark s ∧
   title s' = title s ∧ body s' = body s ∧
   archivePosts s' = archivePosts s ∧ showArchive s' = showArchive s ∧
   (setSearchQuery q s).2 = []) ∧
  (∀ c : PostContext.State,
     PostContext.searchQuery (PostContext.handleAddPost p c) =
       PostContext.searchQuery c ∧
     PostContext.searchQuery (PostContext.handleClearPosts c) =
       PostContext.searchQuery c ∧
     PostContext.posts (PostContext.setSearchQuery q c) = PostContext.posts c) ∧
  (∀ e s' effs,
     step e s = Some (s', effs) →
     Forall (λ eff, eff = PreventDefault ∨
                    eff = ClassListToggle "fake-dark-mode") effs).
Proof.
  repeat split; try done. intros e s' effs. apply step_effects.
Qed.

(** C9.  Submitting the form with an empty title or an empty body calls
    nothing but [preventDefault]: no post is added and the form's fields, as
    every other cell, are unchanged.  With both non-empty the handler calls
    [onAddPost] once, with exactly [{title, body}], and then resets both
    fields to the empty string; in [App], where [onAddPost] is
    [handleAddPost], the post is added to the posts list. *)
Theorem handleSubmit_correct (onAddPost : value → handler) (s : State) :
  (title s = "" ∨ body s = "" →
   handleSubmit onAddPost s = (s, [PreventDefault]) ∧
   step SubmitForm s = Some (s, [PreventDefault])) ∧
  (title s ≠ "" → body s ≠ "" →
   handleSubmit onAddPost s =
     (call PreventDefault ;;
      onAddPost (post_object (title s) (body s)) ;;
      setTitle "" ;;
      setBody "") s ∧
   title (handleSubmit onAddPost s).1 = "" ∧
   body (handleSubmit onAddPost s).1 = "" ∧
   ∃ s', step SubmitForm s = Some (s', [PreventDefault]) ∧
         posts s' = post_object (title s) (body s) :: posts s ∧
         title s' = "" ∧ body s' = "" ∧
         searchQuery s' = searchQuery s ∧ isFakeDark s' = isFakeDark s).
Proof.
  split.
  - intros Hempty.
    assert (∀ f, handleSubmit f s = (s, [PreventDefault])) as Hskip.
    { intros f. unfold handleSubmit.
      assert (not_string (body s) || not_string (title s) = true) as ->; [|done].
      destruct Hempty as [-> | ->]; [apply orb_true_r | done]. }
    split; [apply Hskip|].
    unfold step; simpl. rewrite Hskip. unfold fakeDarkEffect.
    by rewrite bool_decide_eq_true_2.
  - intros Ht Hb.
    assert (∀ f, handleSubmit f s =
                 (call PreventDefault ;;
                  f (post_object (title s) (body s)) ;;
                  setTitle "" ;;
                  setBody "") s) as Hadd.
    { intros f. unfold handleSubmit.
      assert (not_string (body s) || not_string (title s) = false) as ->; [|done].
      by destruct (title s), (body s). }
    split; [apply Hadd|]. rewrite Hadd, !seq_eq. simpl.
    split; [done|]. split; [done|].
    unfold step; simpl. rewrite Hadd, !seq_eq. simpl.
    unfold fakeDarkEffect; simpl. rewrite bool_decide_eq_true_2 by done.
    by eexists.
Qed.

Lemma handleSubmit_correct_witness :
  (handleSubmit handleAddPost
     {| posts := []; searchQuery := ""; isFakeDark := false;
        title := "only a title"; body := "";
        archivePosts := []; showArchive := false |} =
   ({| posts := []; searchQuery := ""; isFakeDark := false;
       title := "only a title"; body := "";
       archivePosts := []; showArchive := false |}, [PreventDefault]) ∧
   step SubmitForm
     {| posts := []; searchQuery := ""; isFakeDark := false;
        title := "only a title"; body := "";
        archivePosts := []; showArchive := false |} =
   Some ({| posts := []; searchQuery := ""; isFakeDark := false;
            title := "only a title"; body := "";
            archivePosts := []; showArchive := false |}, [PreventDefault])) ∧
  title (handleSubmit handleAddPost
     {| posts := []; searchQuery := ""; isFakeDark := false;
        title := "a title"; body := "a body";
        archivePosts := []; showArchive := false |}).1 = "".
Proof.
  split.
  - apply (proj1 (handleSubmit_correct handleAddPost _)). right. reflexivity.
  - apply (proj2 (handleSubmit_correct handleAddPost
       {| posts := []; searchQuery := ""; isFakeDark := false;
          title := "a title"; body := "a body";
          archivePosts := []; showArchive := false |}));
      simpl; discriminate.
Defined.

End Handlers.

Lemma handlers_frame_witness :
  Forall (λ eff, eff = App.PreventDefault ∨
                 eff = App.ClassListToggle "fake-dark-mode")
         [App.ClassListToggle "fake-dark-mode"].
Proof.
  pose proof (handlers_frame
    {| App.posts := [post_object "a" "b"]; App.searchQuery := "a";
       App.isFakeDark := true; App.title := ""; App.body := "";
       App.archivePosts := []; App.showArchive := false |}
    (post_object "c" "d") "q") as (_ & _ & _ & _ & Hstep).
  apply (Hstep App.ClickFakeDark
    {| App.posts := [post_object "a" "b"]; App.searchQuery := "a";
       App.isFakeDark := false; App.title := ""; App.body := "";
       App.archivePosts := []; App.showArchive := false |}).
  reflexivity.
Defined.

Lemma initial_posts_witness :
  App.posts
    {| App.posts := [post_object "c" "d"; post_object "a" "b"];
       App.searchQuery := ""; App.isFakeDark := false;
       App.title := ""; App.body := "";
       App.archivePosts := [post_object "c" "d"]; App.showArchive := true |} =
    [post_object "a" "b"] ∨
  App.posts
    {| App.posts := [post_object "c" "d"; post_object "a" "b"];
       App.searchQuery := ""; App.isFakeDark := false;
       App.title := ""; App.body := "";
       App.archivePosts := [post_object "c" "d"]; App.showArchive := true |} =
    [] ∨
  ∃ post,
    App.posts
      {| App.posts := [post_object "c" "d"; post_object "a" "b"];
         App.searchQuery := ""; App.isFakeDark := false;
         App.title := ""; App.body := "";
         App.archivePosts := [post_object "c" "d"]; App.showArchive := true |} =
    post :: [post_object "a" "b"].
Proof.
  pose proof (initial_posts (H:=ToyFaker.toy) 0) as (_ & _ & _ & _ & Hstep).
  apply (Hstep (App.ClickAddAsNewPost 0)
    {| App.posts := [post_object "a" "b"];
       App.searchQuery := ""; App.isFakeDark := false;
       App.title := ""; App.body := "";
       App.archivePosts := [post_object "c" "d"]; App.showArchive := true |}
    _ []).
  reflexivity.
Defined.

(** ** The context hook *)

Section Hook.
Import PostContext.

Lemma provider_value_fields (s : State) (context : ContextValue) :
  provider_value s = Ok context →
  searchedPosts (posts s) (searchQuery s) = Ok (ctx_posts context) ∧
  ctx_onAddPost context = handleAddPost ∧
  ctx_onClearPosts context = handleClearPosts ∧
  ctx_searchQuery context = searchQuery s ∧
  ctx_setSearchQuery context = setSearchQuery.
Proof.
  unfold provider_value.
  destruct (searchedPosts (posts s) (searchQuery s)) as [searched|]; [|done].
  by intros [= <-].
Qed.

Lemma usePosts_cons (context : ContextValue) (providers : list ContextValue) :
  usePosts (context :: providers) = Ok context.
Proof. reflexivity. Qed.

Lemma usePosts_nil : usePosts [] = Throw (Error outside_message).
Proof. reflexivity. Qed.

(** C8.  [usePosts] throws the error "PostContext was used outside of the
    PostProvider" exactly when the context value is undefined, which is when
    it is called outside every [PostProvider]; otherwise it returns the
    context value provided, and the value a [PostProvider] provides holds
    [posts] (the searched posts), [onAddPost], [onClearPosts], [searchQuery]
    and [setSearchQuery]. *)
Theorem usePosts_correct (providers : list ContextValue) :
  (usePosts providers =
     Throw (Error "PostContext was used outside of the PostProvider") ↔
   useContext providers = None) ∧
  (useContext providers = None ↔ providers = []) ∧
  (∀ e, usePosts providers = Throw e →
        e = Error "PostContext was used outside of the PostProvider") ∧
  (∀ context, useContext providers = Some context →
              usePosts providers = Ok context) ∧
  (∀ s context,
     provider_value s = Ok context →
     usePosts (context :: providers) = Ok context ∧
     searchedPosts (posts s) (searchQuery s) = Ok (ctx_posts context) ∧
     ctx_onAddPost context = handleAddPost ∧
     ctx_onClearPosts context = handleClearPosts ∧
     ctx_searchQuery context = searchQuery s ∧
     ctx_setSearchQuery context = setSearchQuery).
Proof.
  split; [|split; [|split; [|split]]].
  - destruct providers; [done|]. rewrite usePosts_cons. by split.
  - by destruct providers.
  - destruct providers; [|by rewrite usePosts_cons].
    rewrite usePosts_nil. by intros e [= <-].
  - destruct providers; [done|]. rewrite usePosts_cons. simpl. by intros ? [= <-].
  - intros s context Hvalue. split; [apply usePosts_cons|].
    by apply provider_value_fields.
Qed.

End Hook.

Lemma usePosts_correct_witness :
  PostContext.usePosts
    [{| PostContext.ctx_posts := [post_object "a" "b"];
        PostContext.ctx_onAddPost := PostContext.handleAddPost;
        PostContext.ctx_onClearPosts := PostContext.handleClearPosts;
        PostContext.ctx_searchQuery := "";
        PostContext.ctx_setSearchQuery := PostContext.setSearchQuery |}] =
  Ok {| PostContext.ctx_posts := [post_object "a" "b"];
        PostContext.ctx_onAddPost := PostContext.handleAddPost;
        PostContext.ctx_onClearPosts := PostContext.handleClearPosts;
        PostContext.ctx_searchQuery := "";
        PostContext.ctx_setSearchQuery := PostContext.setSearchQuery |} ∧
  PostContext.useContext [] = None.
Proof.
  split.
  - pose proof (usePosts_correct []) as (_ & _ & _ & _ & Hprovided).
    apply (Hprovided
      {| PostContext.posts := [post_object "a" "b"];
         PostContext.searchQuery := "" |}).
    reflexivity.
  - apply (proj1 (usePosts_correct [])). reflexivity.
Defined.

(** ** More on strings and case *)



Lemma toLowerCase_unit_idemp (c : ascii) :
  toLowerCase_unit (toLowerCase_unit c) = toLowerCase_unit c.
Proof. destruct c as [[] [] [] [] [] [] [] []]; reflexivity. Qed.

Lemma toLowerCase_idemp (s : string) :
  toLowerCase (toLowerCase s) = toLowerCase s.
Proof.
  induction s as [|c s IH]; [done|].
  simpl. by rewrite toLowerCase_unit_idemp, IH.
Qed.

Lemma toLowerCase_length (s : string) :
  String.length (toLowerCase s) = String.length s.
Proof. induction s as [|c s IH]; [done|]. simpl. by rewrite IH. Qed.

Lemma toLowerCase_app (s t : string) :
  toLowerCase (s +:+ t) = toLowerCase s +:+ toLowerCase t.
Proof.
  induction s as [|c s IH]; [done|].
  rewrite append_cons_l. simpl. by rewrite IH, append_cons_l.
Qed.





Lemma length_pos_toLowerCase (q : string) :
  (0 <? String.length (toLowerCase q)) = (0 <? String.length q).
Proof. by rewrite toLowerCase_length. Qed.

(** ** More on the filter *)

(** The text of a value as the callback sees it: the callback either
    throws for every query or tests one text against every query. *)
Lemma matches_query_cases (v : value) :
  (is_nullish v ∧ ∀ q, matches_query q v = Throw TypeError) ∨
  (¬ is_nullish v ∧
   ∃ text, ∀ q, matches_query q v =
                Ok (includes (toLowerCase text) (toLowerCase q))).
Proof.
  destruct v as [[| |b|s]|o].
  - left. split; [by left | done].
  - left. split; [by right | done].
  - right. split; [by intros [?|?] | by eexists].
  - right. split; [by intros [?|?] | by eexists].
  - right. split; [by intros [?|?] | by eexists].
Qed.





Lemma filter_ext {A : Type} (cb cb' : A → result bool) (a : list A) :
  (∀ x, x ∈ a → cb x = cb' x) → Js.filter cb a = Js.filter cb' a.
Proof.
  induction a as [|x a IH]; intros Hext; [done|].
  rewrite !filter_cons, Hext, IH; [done| |by left].
  intros y Hy. apply Hext. by right.
Qed.

Lemma filter_idemp {A : Type} (cb : A → result bool) (a kept : list A) :
  Js.filter cb a = Ok kept → Js.filter cb kept = Ok kept.
Proof.
  revert kept. induction a as [|x a IH]; intros kept.
  - by intros [= <-].
  - rewrite filter_cons.
    destruct (cb x) as [keep|] eqn:Hcb; [|done].
    destruct (Js.filter cb a) as [kept'|]; [|done].
    intros [= <-]. specialize (IH kept' eq_refl).
    destruct keep; [|done].
    by rewrite filter_cons, Hcb, IH.
Qed.


(** ** Properties of the search *)


Lemma matches_query_lower (q q' : string) (v : value) :
  toLowerCase q = toLowerCase q' → matches_query q v = matches_query q' v.
Proof.
  intros Heq.
  destruct (matches_query_cases v) as [[_ Hall]|[_ [text Hall]]];
    by rewrite !Hall, ?Heq.
Qed.

(** X2.  The search ignores the case of the query: two queries with the
    same lower-case form give the same result on every list. *)
Theorem search_ignores_query_case (posts : list value) (q q' : string) :
  toLowerCase q = toLowerCase q' →
  searchedPosts posts q = searchedPosts posts q'.
Proof.
  intros Heq. unfold searchedPosts.
  rewrite <- (length_pos_toLowerCase q), <- (length_pos_toLowerCase q'), Heq.
  destruct (0 <? String.length (toLowerCase q')); [|done].
  apply filter_ext. intros x _. by apply matches_query_lower.
Qed.

Lemma search_ignores_query_case_witness :
  searchedPosts [post_object "Neural Card" "x"; post_object "bus" "y"] "CARD" =
  searchedPosts [post_object "Neural Card" "x"; post_object "bus" "y"] "card".
Proof.
  apply search_ignores_query_case. reflexivity.
Defined.

(** X3.  The search ignores the case of the posts: two posts whose titles
    and bodies have the same lower-case forms are matched by the same
    queries. *)
Theorem search_ignores_text_case (q t b t' b' : string) :
  toLowerCase t = toLowerCase t' →
  toLowerCase b = toLowerCase b' →
  matches_query q (post_object t b) = matches_query q (post_object t' b').
Proof.
  intros Ht Hb. rewrite !matches_query_post_object.
  by rewrite !toLowerCase_app, Ht, Hb.
Qed.

Lemma search_ignores_text_case_witness :
  matches_query "al c" (post_object "NEURAL" "Card") =
  matches_query "al c" (post_object "neural" "card").
Proof.
  apply search_ignores_text_case; reflexivity.
Defined.



(** X5.  Searching is idempotent: searching the result again with the same
    query gives the result back. *)
Theorem search_idempotent (posts found : list value) (q : string) :
  searchedPosts posts q = Ok found → searchedPosts found q = Ok found.
Proof.
  unfold searchedPosts. destruct (0 <? String.length q); [|done].
  apply filter_idemp.
Qed.

Lemma search_idempotent_witness :
  searchedPosts [post_object "card" "x"] "car" = Ok [post_object "card" "x"].
Proof.
  apply (search_idempotent [post_object "card" "x"; post_object "bus" "y"]).
  vm_compute. reflexivity.
Defined.





(** X8.  Adding a post and searching compose: after [handleAddPost] of a
    post record, the result of the render is the former result with the new
    post in front when the query is empty or the post matches it, and the
    former result unchanged otherwise. *)
Theorem search_after_add (s : App.State) (found : list value) (t b : string) :
  App.render_searchedPosts s = Ok found →
  (App.searchQuery s = "" ∨ post_matches (App.searchQuery s) (post_object t b) →
   App.render_searchedPosts (App.handleAddPost (post_object t b) s).1 =
     Ok (post_object t b :: found)) ∧
  (App.searchQuery s ≠ "" →
   ¬ post_matches (App.searchQuery s) (post_object t b) →
   App.render_searchedPosts (App.handleAddPost (post_object t b) s).1 =
     Ok found).
Proof.
  unfold App.render_searchedPosts. simpl.
  destruct (decide (App.searchQuery s = "")) as [->|Hq].
  { rewrite !searchedPosts_empty. intros [= <-]. split; [done|]. by intros []. }
  rewrite !searchedPosts_nonempty by done. intros Hfound.
  rewrite filter_cons, Hfound.
  destruct (matches_query (App.searchQuery s) (post_object t b))
    as [[]|] eqn:Hcb.
  - split; [done|]. intros _ Hno. by apply matches_query_true in Hcb.
  - split; [|done]. intros [?|Hm]; [done|].
    apply matches_query_true in Hm. congruence.
  - by rewrite matches_query_post_object in Hcb.
Qed.

Lemma search_after_add_witness :
  App.render_searchedPosts
    (App.handleAddPost (post_object "Card reader" "new")
       {| App.posts := [post_object "card" "x"; post_object "bus" "y"];
          App.searchQuery := "CARD"; App.isFakeDark := false;
          App.title := ""; App.body := "";
          App.archivePosts := []; App.showArchive := false |}).1 =
  Ok [post_object "Card reader" "new"; post_object "card" "x"].
Proof.
  destruct (search_after_add
    {| App.posts := [post_object "card" "x"; post_object "bus" "y"];
       App.searchQuery := "CARD"; App.isFakeDark := false;
       App.title := ""; App.body := "";
       App.archivePosts := []; App.showArchive := false |}
    [post_object "card" "x"] "Card reader" "new") as [Hfront _].
  - vm_compute. reflexivity.
  - apply Hfront. right. apply matches_query_true. vm_compute. reflexivity.
Defined.

(** ** Properties of runs of events *)

Section Runs.
Import App Page.

Lemma fakeDarkEffect_same (s s' : State) :
  isFakeDark s = isFakeDark s' → fakeDarkEffect s s' = [].
Proof. intros Heq. unfold fakeDarkEffect. by rewrite bool_decide_eq_true_2. Qed.

Lemma step_ChangeSearch (q : string) (s : State) :
  step (ChangeSearch q) s = Some ((setSearchQuery q s).1, []).
Proof. unfold step; simpl. by rewrite fakeDarkEffect_same. Qed.

Lemma step_ClickClearPosts (s : State) :
  step ClickClearPosts s = Some ((handleClearPosts s).1, []).
Proof. unfold step; simpl. by rewrite fakeDarkEffect_same. Qed.

Lemma step_SubmitForm_skip (s : State) :
  not_string (body s) || not_string (title s) = true →
  step SubmitForm s = Some (s, [PreventDefault]).
Proof.
  intros Hcond. unfold step; simpl. unfold handleSubmit. rewrite Hcond.
  unfold seq, call, skip. by rewrite fakeDarkEffect_same.
Qed.

Lemma step_SubmitForm_add (s : State) :
  not_string (body s) || not_string (title s) = false →
  step SubmitForm s =
  Some ({| posts := post_object (title s) (body s) :: posts s;
           searchQuery := searchQuery s; isFakeDark := isFakeDark s;
           title := ""; body := "";
           archivePosts := archivePosts s; showArchive := showArchive s |},
        [PreventDefault]).
Proof.
  intros Hcond. unfold step; simpl. unfold handleSubmit. rewrite Hcond.
  unfold seq, call; simpl. by rewrite fakeDarkEffect_same.
Qed.

Lemma step_ClickAddAsNewPost (i : nat) (s : State) (post : value) :
  showArchive s = true → archivePosts s !! i = Some post →
  step (ClickAddAsNewPost i) s = Some ((handleAddPost post s).1, []).
Proof.
  intros Hshow Hi. destruct s as [ps q dark t b archive shown].
  simpl in *. subst shown. unfold step; simpl. rewrite Hi. simpl.
  by rewrite fakeDarkEffect_same.
Qed.

Lemma searchedPosts_nil (q : string) : searchedPosts [] q = Ok [].
Proof. unfold searchedPosts. by destruct (0 <? String.length q). Qed.

Lemma run_nil (s : State) : run [] s = Some (s, []).
Proof. reflexivity. Qed.

Lemma run_step (e : event) (es : list event) (s s1 s2 : State)
    (effs1 effs2 : list effect) :
  step e s = Some (s1, effs1) →
  run es s1 = Some (s2, effs2) →
  run (e :: es) s = Some (s2, effs1 ++ effs2).
Proof.
  intros Hstep Hrun.
  change (run (e :: es) s) with
    (step e s ≫= λ '(s1, effs1),
       run es s1 ≫= λ '(s2, effs2), Some (s2, effs1 ++ effs2)).
  rewrite Hstep. simpl. by rewrite Hrun.
Qed.

Lemma run_step_inv (e : event) (es : list event) (s s2 : State)
    (effs : list effect) :
  run (e :: es) s = Some (s2, effs) →
  ∃ s1 effs1 effs2,
    step e s = Some (s1, effs1) ∧ run es s1 = Some (s2, effs2) ∧
    effs = effs1 ++ effs2.
Proof.
  change (run (e :: es) s) with
    (step e s ≫= λ '(s1, effs1),
       run es s1 ≫= λ '(s2, effs2), Some (s2, effs1 ++ effs2)).
  destruct (step e s) as [[s1 effs1]|]; [|done]. simpl.
  destruct (run es s1) as [[s2' effs2]|] eqn:Hrun; [|done]. simpl.
  intros [= <- <-]. by exists s1, effs1, effs2.
Qed.

(** X9.  After "Clear posts" the page shows no post and rendering cannot
    throw, whatever is then typed in the search box. *)
Theorem cleared_page_shows_nothing (s : State) (q : string) :
  ∃ s', run [ClickClearPosts; ChangeSearch q] s = Some (s', []) ∧
        posts s' = [] ∧
        render_searchedPosts s' = Ok [].
Proof.
  exists (setSearchQuery q (handleClearPosts s).1).1. split.
  - eapply (run_step _ _ _ _ _ [] []); [apply step_ClickClearPosts|].
    eapply (run_step _ _ _ _ _ [] []); [apply step_ChangeSearch|].
    apply run_nil.
  - split; [done|]. apply searchedPosts_nil.
Qed.

(** X10.  Searching does not destroy posts: after any sequence of changes
    of the search box that ends with the empty text, the stored list is
    unchanged and the whole list is shown again. *)
Theorem emptying_the_query_restores_the_list (s : State) (qs : list string) :
  ∃ s', run (ChangeSearch <$> (qs ++ [""])) s = Some (s', []) ∧
        posts s' = posts s ∧
        render_searchedPosts s' = Ok (posts s).
Proof.
  revert s. induction qs as [|q qs IH]; intros s.
  - exists (setSearchQuery "" s).1. split; [|done].
    eapply (run_step _ _ _ _ _ [] []); [apply step_ChangeSearch | apply run_nil].
  - destruct (IH (setSearchQuery q s).1) as (s' & Hrun & Hposts & Hrender).
    exists s'. split; [|done].
    rewrite <- app_comm_cons, fmap_cons.
    eapply (run_step _ _ _ _ _ [] []); [apply step_ChangeSearch | done].
Qed.

(** X11.  Submitting the form twice in a row adds at most one post: the
    second submission finds the fields empty (or still incomplete) and
    changes nothing. *)
Theorem submitting_twice_adds_once (s : State) :
  ∃ s1,
    run [SubmitForm] s = Some (s1, [PreventDefault]) ∧
    run [SubmitForm; SubmitForm] s = Some (s1, [PreventDefault; PreventDefault]).
Proof.
  destruct (not_string (body s) || not_string (title s)) eqn:Hcond.
  - exists s.
    pose proof (step_SubmitForm_skip s Hcond) as Hstep.
    split.
    + by eapply (run_step _ _ _ _ _ [PreventDefault] [] Hstep), run_nil.
    + eapply (run_step _ _ _ _ _ [PreventDefault] [PreventDefault] Hstep).
      by eapply (run_step _ _ _ _ _ [PreventDefault] [] Hstep), run_nil.
  - pose proof (step_SubmitForm_add s Hcond) as Hstep.
    eexists. split.
    + by eapply (run_step _ _ _ _ _ [PreventDefault] [] Hstep), run_nil.
    + eapply (run_step _ _ _ _ _ [PreventDefault] [PreventDefault] Hstep).
      eapply (run_step _ _ _ _ _ [PreventDefault] []); [|apply run_nil].
      by apply step_SubmitForm_skip.
Qed.

(** X14.  The "Add as new post" button of the archive: it is on the page
    exactly when the archive is shown and the index is below the number of
    archived posts; clicking it puts that archived post in front of the
    posts, changes no other cell and calls nothing outside. *)
Theorem add_archived_post (s : State) (i : nat) :
  (step (ClickAddAsNewPost i) s = None ↔
   showArchive s = false ∨ length (archivePosts s) ≤ i) ∧
  (∀ s' effs,
     step (ClickAddAsNewPost i) s = Some (s', effs) →
     ∃ post, archivePosts s !! i = Some post ∧
             s' = (handleAddPost post s).1 ∧
             posts s' = post :: posts s ∧
             archivePosts s' = archivePosts s ∧
             effs = []).
Proof.
  destruct (showArchive s) eqn:Hshow.
  - destruct (archivePosts s !! i) as [post|] eqn:Hi.
    + rewrite (step_ClickAddAsNewPost i s post Hshow Hi). split.
      * split; [done|]. intros [?|Hlen]; [done|].
        apply lookup_ge_None in Hlen. congruence.
      * intros s' effs [= <- <-]. by exists post.
    + unfold step; simpl. rewrite Hshow, Hi. simpl. split; [|done].
      split; [|done]. intros _. right. by apply lookup_ge_None.
  - unfold step; simpl. rewrite Hshow. simpl. split; [|done].
    split; [by left | done].
Qed.

Lemma add_archived_post_witness :
  ∃ post,
    [post_object "a" "b"; post_object "c" "d"] !! 1 = Some post ∧
    {| posts := [post_object "c" "d"]; searchQuery := "";
       isFakeDark := false; title := ""; body := "";
       archivePosts := [post_object "a" "b"; post_object "c" "d"];
       showArchive := true |} =
    (handleAddPost post
       {| posts := []; searchQuery := ""; isFakeDark := false;
          title := ""; body := "";
          archivePosts := [post_object "a" "b"; post_object "c" "d"];
          showArchive := true |}).1 ∧
    [post_object "c" "d"] = post :: [] ∧
    [post_object "a" "b"; post_object "c" "d"] =
      [post_object "a" "b"; post_object "c" "d"] ∧
    ([] : list effect) = [].
Proof.
  apply (proj2 (add_archived_post
    {| posts := []; searchQuery := ""; isFakeDark := false;
       title := ""; body := "";
       archivePosts := [post_object "a" "b"; post_object "c" "d"];
       showArchive := true |} 1)).
  reflexivity.
Defined.

End Runs.

(** ** The class list and the memoized options *)

Section Document.
Import App Page.

Lemma step_effects_shape (e : event) (s s' : State) (effs : list effect) :
  step e s = Some (s', effs) →
  ∃ calls, effs = calls ++ fakeDarkEffect s s' ∧
           Forall (λ eff, eff = PreventDefault) calls.
Proof.
  unfold step. destruct e; simpl;
    try (intros [= <- <-]; by exists []).
  - unfold handleSubmit, seq, call, skip.
    destruct (not_string (body s) || not_string (title s));
      intros [= <- <-]; exists [PreventDefault]; by repeat constructor.
  - destruct (showArchive s); [|done].
    destruct (archivePosts s !! i); [|done].
    intros [= <- <-]. by exists [].
Qed.

Lemma perform_all_app (effs1 effs2 : list effect) (classList : gset string) :
  perform_all (effs1 ++ effs2) classList =
  perform_all effs2 (perform_all effs1 classList).
Proof. apply foldl_app. Qed.

Lemma perform_all_calls (calls : list effect) (classList : gset string) :
  Forall (λ eff, eff = PreventDefault) calls →
  perform_all calls classList = classList.
Proof.
  induction 1 as [|eff calls Heff _ IH]; [done|]. subst eff. exact IH.
Qed.

Lemma elem_of_classList_toggle (token token' : string) (classList : gset string) :
  token' ∈ classList_toggle token classList ↔
  (token' = token ∧ token ∉ classList) ∨ (token' ≠ token ∧ token' ∈ classList).
Proof.
  unfold classList_toggle. destruct (decide (token ∈ classList)) as [Hin|Hout].
  - rewrite elem_of_difference, elem_of_singleton. split.
    + intros [? ?]. by right.
    + intros [[-> ?]|[? ?]]; done.
  - rewrite elem_of_union, elem_of_singleton. split.
    + intros [? | ->]; [|by left].
      right. split; [|done]. by intros ->.
    + intros [[-> _]|[_ ?]]; [by right | by left].
Qed.

(** The class list after one event. *)
Lemma perform_step (e : event) (s s' : State) (effs : list effect)
    (classList : gset string) :
  step e s = Some (s', effs) →
  perform_all effs classList =
  if bool_decide (isFakeDark s = isFakeDark s') then classList
  else classList_toggle "fake-dark-mode" classList.
Proof.
  intros (calls & -> & Hcalls)%step_effects_shape.
  rewrite perform_all_app, (perform_all_calls calls) by done.
  unfold fakeDarkEffect. case_bool_decide; reflexivity.
Qed.

(** X15.  The [fake-dark-mode] class follows [isFakeDark]: over any run of
    events the class has changed sides on the document element exactly when
    [isFakeDark] has changed value, and no other class is touched. *)
Theorem class_follows_isFakeDark (es : list event) (s s' : State)
    (effs : list effect) (classList : gset string) :
  run es s = Some (s', effs) →
  (("fake-dark-mode" ∈ perform_all effs classList ↔
    "fake-dark-mode" ∈ classList) ↔
   isFakeDark s' = isFakeDark s) ∧
  (∀ token, token ≠ "fake-dark-mode" →
            (token ∈ perform_all effs classList ↔ token ∈ classList)).
Proof.
  revert s effs classList. induction es as [|e es IH]; intros s effs classList.
  - intros [= <- <-]. split; [done | done].
  - intros (s1 & effs1 & effs2 & Hstep & Hrun & ->)%run_step_inv.
    rewrite perform_all_app, (perform_step _ _ _ _ _ Hstep).
    case_bool_decide as Hs1.
    + destruct (IH _ _ classList Hrun) as [Hdark Hother].
      split; [by rewrite Hs1 | done].
    + destruct (IH _ _ (classList_toggle "fake-dark-mode" classList) Hrun)
        as [Hdark Hother].
      split.
      * assert ("fake-dark-mode" ∈ classList_toggle "fake-dark-mode" classList ↔
                "fake-dark-mode" ∉ classList) as Htoggle.
        { rewrite elem_of_classList_toggle. intuition. }
        rewrite Htoggle in Hdark.
        destruct (decide ("fake-dark-mode" ∈
                    perform_all effs2
                      (classList_toggle "fake-dark-mode" classList)));
          destruct (decide ("fake-dark-mode" ∈ classList));
          destruct (isFakeDark s), (isFakeDark s1), (isFakeDark s');
          intuition congruence.
      * intros token Htoken. rewrite (Hother token Htoken).
        rewrite elem_of_classList_toggle. intuition congruence.
Qed.

Lemma class_follows_isFakeDark_witness :
  (("fake-dark-mode" ∈
      perform_all [ClassListToggle "fake-dark-mode"; PreventDefault] ∅ ↔
    "fake-dark-mode" ∈ (∅ : gset string)) ↔
   true = false) ∧
  (∀ token, token ≠ "fake-dark-mode" →
     (token ∈ perform_all [ClassListToggle "fake-dark-mode"; PreventDefault] ∅ ↔
      token ∈ (∅ : gset string))).
Proof.
  apply (class_follows_isFakeDark [ClickFakeDark; SubmitForm]
    {| posts := []; searchQuery := ""; isFakeDark := false;
       title := ""; body := ""; archivePosts := []; showArchive := false |}
    {| posts := []; searchQuery := ""; isFakeDark := true;
       title := ""; body := ""; archivePosts := []; showArchive := false |}).
  reflexivity.
Defined.

Lemma calculate_archiveOptions_length (s1 s2 : State) :
  length (posts s1) = length (posts s2) →
  calculate_archiveOptions s1 = calculate_archiveOptions s2.
Proof. intros Hlen. unfold calculate_archiveOptions. by rewrite Hlen. Qed.

(** A memo cell is sound when its value is what the callback calculates in
    every state with that number of posts. *)
Lemma renders_sound (es : list event) (s s' : State)
    (cell : option (nat * ArchiveOptions)) (options : ArchiveOptions) :
  (∀ n cached, cell = Some (n, cached) →
               ∀ s0, length (posts s0) = n →
                     cached = calculate_archiveOptions s0) →
  renders es s cell = Some (s', options) →
  options = calculate_archiveOptions s'.
Proof.
  revert s cell. induction es as [|e es IH]; intros s cell Hcell.
  - simpl. unfold render_archiveOptions, useMemo.
    destruct cell as [[n cached]|]; [|by intros [= <- <-]].
    destruct (decide (n = length (posts s))) as [Hn|_]; intros [= <- <-]; [|done].
    by apply (Hcell n).
  - simpl. destruct (render_archiveOptions s cell) as [options0 cell'] eqn:Hr.
    destruct (step e s) as [[s1 effs]|]; [|done]. simpl.
    apply IH. intros n cached [= ->] s0 Hs0.
    unfold render_archiveOptions, useMemo in Hr.
    destruct cell as [[n' cached']|].
    + destruct (decide (n' = length (posts s))) as [Hn|_]; simplify_eq.
      * by apply (Hcell (length (posts s))).
      * by apply calculate_archiveOptions_length.
    + simplify_eq. by apply calculate_archiveOptions_length.
Qed.

(** X16.  The memoized [archiveOptions] is never stale: after the first
    render and the renders that follow any events, the object handed to
    [Archive] is the one a fresh calculation would give, so its title names
    the current number of posts. *)
Theorem archiveOptions_memo_is_fresh (es : list event) (s s' : State)
    (options : ArchiveOptions) :
  renders es s None = Some (s', options) →
  options = calculate_archiveOptions s' ∧
  show options = false ∧
  options_title options =
    "Post archive in addition to " +:+
    number_to_string (length (posts s')) +:+ " main posts".
Proof.
  intros Hr. apply renders_sound in Hr as ->; done.
Qed.

Lemma archiveOptions_memo_is_fresh_witness :
  options_title
    {| show := false;
       options_title := "Post archive in addition to 0 main posts" |} =
  "Post archive in addition to " +:+ number_to_string 0 +:+ " main posts".
Proof.
  apply (archiveOptions_memo_is_fresh [ChangeSearch "a"; ClickClearPosts]
    {| posts := [post_object "a" "b"]; searchQuery := ""; isFakeDark := false;
       title := ""; body := ""; archivePosts := []; showArchive := false |}
    {| posts := []; searchQuery := "a"; isFakeDark := false;
       title := ""; body := ""; archivePosts := []; showArchive := false |}).
  reflexivity.
Defined.

End Document.

(** ** Invariants of the page *)

Section Invariants.
Context `{Faker}.
Import App.

Lemma step_archivePosts (e : event) (s s' : State) (effs : list effect) :
  step e s = Some (s', effs) → archivePosts s' = archivePosts s.
Proof.
  unfold step. destruct e; simpl; try (by intros [= <- <-]).
  - unfold handleSubmit, seq, call, skip.
    by destruct (not_string (body s) || not_string (title s));
      intros [= <- <-].
  - destruct (showArchive s); [|done].
    destruct (archivePosts s !! i); [|done].
    by intros [= <- <-].
Qed.

(** X12.  The archive is read-only: in every state the page can reach, the
    archived posts are the 30000 posts generated at mount, in the same
    order. *)
#[warnings="-abstract-large-number"] Theorem archive_is_never_modified (g : rng) (s : State) :
  reachable g s →
  archivePosts s = archivePosts (init g) ∧ length (archivePosts s) = 30000.
Proof.
  intros Hreach.
  assert (archivePosts s = archivePosts (init g)) as ->.
  { induction Hreach as [|s e s' effs _ IH Hstep]; [done|].
    by rewrite (step_archivePosts _ _ _ _ Hstep). }
  split; [done|].
  unfold init, mount. rewrite !gen_bind_eq. apply array_from_length.
Qed.



End Invariants.

#[warnings="-abstract-large-number"] Lemma archive_is_never_modified_witness :
  App.archivePosts (App.init (H:=ToyFaker.toy) 0) =
    App.archivePosts (App.init (H:=ToyFaker.toy) 0) ∧
  length (App.archivePosts (App.init (H:=ToyFaker.toy) 0)) = 30000.
Proof.
  apply (archive_is_never_modified (H:=ToyFaker.toy) 0
           (App.init (H:=ToyFaker.toy) 0)).
  apply App.reachable_init.
Defined.


(** ** The two variants *)

Section Variants.
Import PostContext.

(** X17.  The operations a consumer gets from the context compose with the
    provider's next render: after [onClearPosts] the context holds no post
    and the query is kept; after [setSearchQuery("")] it holds the whole
    stored list; and a post added after that is its first post. *)
Theorem context_operations_compose (s : State) (context : ContextValue) (p : value) :
  provider_value s = Ok context →
  usePosts [context] = Ok context ∧
  (∃ context',
     provider_value (ctx_onClearPosts context s) = Ok context' ∧
     ctx_posts context' = [] ∧
     ctx_searchQuery context' = searchQuery s) ∧
  (∃ context',
     provider_value (ctx_setSearchQuery context "" s) = Ok context' ∧
     ctx_posts context' = posts s ∧
     ctx_searchQuery context' = "") ∧
  (∃ context',
     provider_value
       (ctx_onAddPost context p (ctx_setSearchQuery context "" s)) =
       Ok context' ∧
     ctx_posts context' = p :: posts s).
Proof.
  intros (_ & -> & -> & _ & ->)%provider_value_fields.
  split; [done|].
  unfold provider_value; simpl. rewrite searchedPosts_nil. simpl.
  repeat split; by eexists.
Qed.

Lemma context_operations_compose_witness :
  ∃ context',
    PostContext.provider_value
      (PostContext.handleClearPosts
         {| posts := [post_object "a" "b"]; searchQuery := "a" |}) =
      Ok context' ∧
    ctx_posts context' = [] ∧
    ctx_searchQuery context' = "a".
Proof.
  apply (context_operations_compose
    {| posts := [post_object "a" "b"]; searchQuery := "a" |}
    {| ctx_posts := [post_object "a" "b"];
       ctx_onAddPost := handleAddPost;
       ctx_onClearPosts := handleClearPosts;
       ctx_searchQuery := "a";
       ctx_setSearchQuery := setSearchQuery |}
    (post_object "c" "d")); reflexivity.
Defined.

(** X18.  The two variants keep the same posts and query: every event of
    the [App] page acts on these two cells as no operation or as one of the
    three operations of [PostProvider], and on corresponding cells the two
    renders give the same searched posts or throw the same exception. *)
Theorem variants_agree (e : App.event) (s s' : App.State) (effs : list App.effect) :
  App.step e s = Some (s', effs) →
  (provider_cells s' = provider_cells s ∨
   provider_cells s' = handleClearPosts (provider_cells s) ∨
   (∃ q, provider_cells s' = setSearchQuery q (provider_cells s)) ∨
   (∃ p, provider_cells s' = handleAddPost p (provider_cells s))) ∧
  match provider_value (provider_cells s') with
  | Ok context =>
      App.render_searchedPosts s' = Ok (ctx_posts context) ∧
      ctx_searchQuery context = App.searchQuery s'
  | Throw exception => App.render_searchedPosts s' = Throw exception
  end.
Proof.
  intros Hstep. split.
  - revert Hstep. unfold App.step. destruct e; simpl;
      try (intros [= <- <-]; by eauto 6).
    + unfold App.handleSubmit, App.seq, App.call, App.skip.
      destruct (not_string (App.body s) || not_string (App.title s));
        intros [= <- <-]; by eauto 6.
    + destruct (App.showArchive s); [|done].
      destruct (App.archivePosts s !! i); [|done].
      intros [= <- <-]; by eauto 6.
  - unfold provider_value, App.render_searchedPosts; simpl.
    by destruct (searchedPosts (App.posts s') (App.searchQuery s')).
Qed.

Lemma variants_agree_witness :
  provider_cells
    {| App.posts := []; App.searchQuery := "q"; App.isFakeDark := false;
       App.title := ""; App.body := "";
       App.archivePosts := []; App.showArchive := false |} =
  provider_cells
    {| App.posts := [post_object "a" "b"]; App.searchQuery := "q";
       App.isFakeDark := false; App.title := ""; App.body := "";
       App.archivePosts := []; App.showArchive := false |} ∨
  provider_cells
    {| App.posts := []; App.searchQuery := "q"; App.isFakeDark := false;
       App.title := ""; App.body := "";
       App.archivePosts := []; App.showArchive := false |} =
  handleClearPosts
    (provider_cells
       {| App.posts := [post_object "a" "b"]; App.searchQuery := "q";
          App.isFakeDark := false; App.title := ""; App.body := "";
          App.archivePosts := []; App.showArchive := false |}) ∨
  (∃ q,
     provider_cells
       {| App.posts := []; App.searchQuery := "q"; App.isFakeDark := false;
          App.title := ""; App.body := "";
          App.archivePosts := []; App.showArchive := false |} =
     setSearchQuery q
       (provider_cells
          {| App.posts := [post_object "a" "b"]; App.searchQuery := "q";
             App.isFakeDark := false; App.title := ""; App.body := "";
             App.archivePosts := []; App.showArchive := false |})) ∨
  (∃ p,
     provider_cells
       {| App.posts := []; App.searchQuery := "q"; App.isFakeDark := false;
          App.title := ""; App.body := "";
          App.archivePosts := []; App.showArchive := false |} =
     handleAddPost p
       (provider_cells
          {| App.posts := [post_object "a" "b"]; App.searchQuery := "q";
             App.isFakeDark := false; App.title := ""; App.body := "";
             App.archivePosts := []; App.showArchive := false |})).
Proof.
  apply (variants_agree App.ClickClearPosts
    {| App.posts := [post_object "a" "b"]; App.searchQuery := "q";
       App.isFakeDark := false; App.title := ""; App.body := "";
       App.archivePosts := []; App.showArchive := false |}
    {| App.posts := []; App.searchQuery := "q"; App.isFakeDark := false;
       App.title := ""; App.body := "";
       App.archivePosts := []; App.showArchive := false |} []).
  reflexivity.
Defined.

End Variants.
